(** * PI_Dashboard: the admin router (app/routers/admin.py)

    A shallow embedding of the three request handlers of the admin router
    ([admin_home], [upload_snapshot], [list_snapshots]) and of its
    connection dependency ([get_conn]), and the properties of the
    aggregated upload report, of the snapshot listings and of the
    connection's life cycle.

    Conventions of the embedding:
    - a Python [str] is a [string] (its UTF-8 bytes), [+] on strings is
      [+:+], [str(n)] / [{n}] in an f-string on an [int] is [pretty];
    - a Python [int] is a [Z];
    - a Python [dict] with string keys is a [gmap string _];
    - the importer and the database are collaborators that live outside
      app/routers/admin.py: they are parameters of the development, and
      the state they change is threaded explicitly through the handlers. *)

From stdpp Require Import gmap strings list fin_maps sorting pretty.
From Stdlib Require Import ZArith Lia QArith.

Open Scope Z_scope.

(** ** Values stored in a column

    The storage classes of SQLite: NULL, INTEGER, REAL, TEXT and BLOB. *)

(** A REAL is an IEEE double.  SQLite stores a NaN as NULL, so a stored
    double is an infinity or a finite number, and a finite double is a
    dyadic rational [m * 2^e]; the sort order reads nothing but that
    value (the two zeros are equal). *)
Inductive SqlRealValue : Type :=
  | RealNegInfinity
  | RealFinite (m e : Z)
  | RealPosInfinity.

Inductive SqlValue : Type :=
  | SqlNull
  | SqlInteger (n : Z)
  | SqlReal (x : SqlRealValue)
  | SqlText (s : string)
  | SqlBlob (b : list Byte.byte).

(** The number a finite double [m * 2^e] stands for. *)
Definition dyadic (m e : Z) : Q := (inject_Z m * Qpower (2 # 1) e)%Q.

(** Numeric comparison of two REALs. *)
Definition real_leb (x y : SqlRealValue) : bool :=
  match x, y with
  | RealNegInfinity, _ => true
  | _, RealPosInfinity => true
  | RealFinite m1 e1, RealFinite m2 e2 => Qle_bool (dyadic m1 e1) (dyadic m2 e2)
  | _, _ => false
  end.

(** An INTEGER among the REALs: SQLite compares an INTEGER with a REAL by
    their exact numeric values. *)
Definition real_of_Z (n : Z) : SqlRealValue := RealFinite n 0.

(** [memcmp]-style comparison of two byte sequences: the first differing
    byte decides, and a proper prefix is smaller. *)
Fixpoint bytes_leb (a b : list N) : bool :=
  match a, b with
  | [], _ => true
  | _ :: _, [] => false
  | x :: a', y :: b' =>
      if (x <? y)%N then true
      else if (y <? x)%N then false
      else bytes_leb a' b'
  end.

Definition text_bytes (s : string) : list N :=
  (fun c => Ascii.N_of_ascii c) <$> String.list_ascii_of_string s.

Definition blob_bytes (b : list Byte.byte) : list N := Byte.to_N <$> b.

(** The collating sequence of a TEXT column, given by the sort key it
    assigns to a text: two texts compare as their keys do, byte by byte.
    Which one the [snapshot_date] column has is set by the schema. *)
Record Collation : Type := mkCollation {
  sort_key : string -> list N
}.

(** BINARY, the default: a text is compared by its own bytes. *)
Definition binary_collation : Collation := mkCollation text_bytes.

(** The order SQLite sorts by: NULL first, then INTEGER and REAL values
    by their numeric value, then TEXT by the collating sequence, then
    BLOBs by their bytes. *)
Definition sql_leb (c : Collation) (a b : SqlValue) : bool :=
  match a, b with
  | SqlNull, _ => true
  | _, SqlNull => false
  | SqlInteger x, SqlInteger y => x <=? y
  | SqlInteger x, SqlReal y => real_leb (real_of_Z x) y
  | SqlReal x, SqlInteger y => real_leb x (real_of_Z y)
  | SqlReal x, SqlReal y => real_leb x y
  | (SqlInteger _ | SqlReal _), (SqlText _ | SqlBlob _) => true
  | (SqlText _ | SqlBlob _), (SqlInteger _ | SqlReal _) => false
  | SqlText s, SqlText t => bytes_leb (sort_key c s) (sort_key c t)
  | SqlText _, SqlBlob _ => true
  | SqlBlob _, SqlText _ => false
  | SqlBlob x, SqlBlob y => bytes_leb (blob_bytes x) (blob_bytes y)
  end.

(** ** Rows of the [snapshots] table *)

(** Modelled from the spec: the schema of the [snapshots] table (app/db.py
    is not part of the sources at hand).  The data model names four
    columns: snapshot id, date, upload timestamp and source filename. *)
Record Row : Type := mkRow {
  snapshot_id : SqlValue;
  snapshot_date : SqlValue;
  uploaded_at : SqlValue;
  source_filename : SqlValue
}.

(** The [snapshots] table in one state of the database: the collating
    sequence of its [snapshot_date] column and its rows in stored order. *)
Record SnapshotsTable : Type := mkTable {
  date_collation : Collation;
  table_rows : list Row
}.

(** [r1] may come before [r2] under [ORDER BY snapshot_date DESC]. *)
Definition date_desc (c : Collation) (r1 r2 : Row) : Prop :=
  sql_leb c (snapshot_date r2) (snapshot_date r1) = true.

(** [row] put in its place among rows already in order: before the first
    row whose date is not larger. *)
Fixpoint insert_by_date (c : Collation) (row : Row) (sorted : list Row)
  : list Row :=
  match sorted with
  | [] => [row]
  | row' :: rest =>
      if sql_leb c (snapshot_date row') (snapshot_date row)
      then row :: sorted
      else row' :: insert_by_date c row rest
  end.

(** [conn.execute("SELECT * FROM snapshots ORDER BY snapshot_date DESC").fetchall()]
    on a database holding [table]: every row, sorted by date, largest
    first.  (The engine leaves the order of rows with equal dates open;
    here they stay in stored order.) *)
Definition select_snapshots_by_date_desc (table : SnapshotsTable) : list Row :=
  foldr (insert_by_date (date_collation table)) [] (table_rows table).

(** ** Schemas (app/schemas.py) *)

(** Modelled from the spec: [SnapshotReport] of app/schemas.py, a report
    struct (success flag, message, counts, warning list, error list); the
    field names are those the router uses. *)
Record SnapshotReport : Type := mkReport {
  success : bool;
  message : string;
  processed_projects : Z;
  processed_events : Z;
  warnings : list string;
  errors : list string
}.

(** Field assignments on the (mutable) aggregated report. *)
Definition set_success (b : bool) (r : SnapshotReport) : SnapshotReport :=
  mkReport b (message r) (processed_projects r) (processed_events r)
           (warnings r) (errors r).
Definition set_message (m : string) (r : SnapshotReport) : SnapshotReport :=
  mkReport (success r) m (processed_projects r) (processed_events r)
           (warnings r) (errors r).
Definition set_processed_projects (n : Z) (r : SnapshotReport) : SnapshotReport :=
  mkReport (success r) (message r) n (processed_events r)
           (warnings r) (errors r).
Definition set_processed_events (n : Z) (r : SnapshotReport) : SnapshotReport :=
  mkReport (success r) (message r) (processed_projects r) n
           (warnings r) (errors r).
Definition set_warnings (l : list string) (r : SnapshotReport) : SnapshotReport :=
  mkReport (success r) (message r) (processed_projects r) (processed_events r)
           l (errors r).
Definition set_errors (l : list string) (r : SnapshotReport) : SnapshotReport :=
  mkReport (success r) (message r) (processed_projects r) (processed_events r)
           (warnings r) l.

(** ** Requests and responses *)

(** An uploaded file: the router reads its [filename]; the importer
    consumes its [content]. *)
Record UploadFile : Type := mkUploadFile {
  filename : string;
  content : list Byte.byte
}.

(** The context handed to the [admin.html] template.  [admin_home] passes
    no ["report"] key. *)
Record TemplateContext (Request : Type) : Type := mkContext {
  ctx_request : Request;
  ctx_snapshots : list Row;
  ctx_report : option SnapshotReport;
  ctx_body_class : string
}.
Arguments mkContext {Request} _ _ _ _.
Arguments ctx_request {Request} _.
Arguments ctx_snapshots {Request} _.
Arguments ctx_report {Request} _.
Arguments ctx_body_class {Request} _.

Record TemplateResponse (Request : Type) : Type := mkTemplateResponse {
  template_name : string;
  context : TemplateContext Request
}.
Arguments mkTemplateResponse {Request} _ _.
Arguments template_name {Request} _.
Arguments context {Request} _.

(** Python truthiness of a list: [if xs:]. *)
Definition truthy {A} (l : list A) : bool :=
  match l with [] => false | _ :: _ => true end.

(** [f"[{file.filename}] "] *)
Definition file_prefix (file : UploadFile) : string :=
  "[" +:+ filename file +:+ "] ".

(** The local variables of [upload_snapshot] that the loop updates. *)
Record UploadLocals : Type := mkLocals {
  aggregated_report : SnapshotReport;
  valid_files_count : Z
}.

Section Router.

(** The collaborators: the incoming request object, the state of the
    outside world (the database the connection reads), the importer, and
    the contents of the [snapshots] table in a given state. *)
Variable Request : Type.
Variable World : Type.
Variable import_snapshot : UploadFile -> World -> SnapshotReport * World.
Variable snapshots_table : World -> SnapshotsTable.

(** [admin_home] *)
Definition admin_home (request : Request) (conn : World)
  : TemplateResponse Request :=
  let snapshots := select_snapshots_by_date_desc (snapshots_table conn) in
  mkTemplateResponse "admin.html"
    (mkContext request snapshots None "cockpit").

(** One iteration of [for file in files:]. *)
Definition upload_file (file : UploadFile) (st : UploadLocals) (w : World)
  : UploadLocals * World :=
  let '(report, w) := import_snapshot file w in
  let agg := aggregated_report st in
  let agg :=
    set_processed_projects
      (processed_projects agg + processed_projects report) agg in
  let agg :=
    set_processed_events
      (processed_events agg + processed_events report) agg in
  let prefix := file_prefix file in
  let agg :=
    if truthy (warnings report)
    then set_warnings
           (warnings agg ++ ((fun w => prefix +:+ w) <$> warnings report)) agg
    else agg in
  let agg :=
    if truthy (errors report)
    then set_success false
           (set_errors
              (errors agg ++ ((fun e => prefix +:+ e) <$> errors report)) agg)
    else agg in
  let valid :=
    if success report
    then valid_files_count st + 1
    else valid_files_count st in
  (mkLocals agg valid, w).

Fixpoint upload_loop (files : list UploadFile) (st : UploadLocals) (w : World)
  : UploadLocals * World :=
  match files with
  | [] => (st, w)
  | file :: rest =>
      let '(st, w) := upload_file file st w in
      upload_loop rest st w
  end.

(** Final message construction. *)
Definition finish_report (files : list UploadFile) (st : UploadLocals)
  : SnapshotReport :=
  let agg := aggregated_report st in
  let n := Z.of_nat (length files) in
  let valid := valid_files_count st in
  if truthy (errors agg)
  then set_message
         ("Processed " +:+ pretty n +:+ " files. "
          +:+ pretty valid +:+ " succeeded, "
          +:+ pretty (n - valid) +:+ " failed.")
         (set_success false agg)
  else set_message
         ("Successfully uploaded " +:+ pretty valid +:+ " files.")
         (set_success true agg).

(** The report [upload_snapshot] builds, and the world it leaves. *)
Definition upload_report (files : list UploadFile) (w : World)
  : SnapshotReport * World :=
  let st := mkLocals (mkReport true "" 0 0 [] []) 0 in
  let '(st, w) := upload_loop files st w in
  (finish_report files st, w).

(** [upload_snapshot] *)
Definition upload_snapshot (request : Request) (files : list UploadFile)
    (conn : World) : TemplateResponse Request * World :=
  let '(report, conn) := upload_report files conn in
  let snapshots := select_snapshots_by_date_desc (snapshots_table conn) in
  (mkTemplateResponse "admin.html"
     (mkContext request snapshots (Some report) "cockpit"),
   conn).

(** [list_snapshots] *)
Definition list_snapshots (conn : World) : list (gmap string SqlValue) :=
  let rows := select_snapshots_by_date_desc (snapshots_table conn) in
  foldl
    (fun data row =>
       data ++ [ {[ "snapshot_id" := snapshot_id row;
                    "snapshot_date" := snapshot_date row;
                    "uploaded_at" := uploaded_at row;
                    "source_filename" := source_filename row ]} ])
    [] rows.

(** The reports the importer hands back during one run of the loop, in
    the order of the calls. *)
Fixpoint per_file_reports (files : list UploadFile) (w : World)
  : list SnapshotReport :=
  match files with
  | [] => []
  | file :: rest =>
      let '(report, w) := import_snapshot file w in
      report :: per_file_reports rest w
  end.

(** The world after the importer has run on every file in turn. *)
Fixpoint world_after (files : list UploadFile) (w : World) : World :=
  match files with
  | [] => w
  | file :: rest => world_after rest (import_snapshot file w).2
  end.

End Router.

Arguments admin_home {Request World} snapshots_table request conn.
Arguments upload_file {World} import_snapshot file st w.
Arguments upload_loop {World} import_snapshot files st w.
Arguments upload_report {World} import_snapshot files w.
Arguments upload_snapshot {Request World} import_snapshot snapshots_table
  request files conn.
Arguments list_snapshots {World} snapshots_table conn.
Arguments per_file_reports {World} import_snapshot files w.
Arguments world_after {World} import_snapshot files w.

(** The report the page of [upload_snapshot] is annotated with. *)
Definition rendered_report {Request World : Type}
    (import_snapshot : UploadFile -> World -> SnapshotReport * World)
    (snapshots_table : World -> SnapshotsTable)
    (request : Request) (files : list UploadFile) (conn : World)
  : option SnapshotReport :=
  ctx_report
    (context
       (upload_snapshot import_snapshot snapshots_table request files conn).1).

(** ** Vocabulary of the statements *)

(** Sum of a list of Python integers. *)
Definition Zsum (l : list Z) : Z := foldr Z.add 0 l.

(** The messages of one file, each behind the file's prefix. *)
Definition prefixed (file : UploadFile) (msgs : list string) : list string :=
  (fun m => file_prefix file +:+ m) <$> msgs.

(** The prefixed messages of every file, file after file; [field] picks
    the warning list or the error list of a report. *)
Definition prefixed_all (field : SnapshotReport -> list string)
    (files : list UploadFile) (reports : list SnapshotReport) : list string :=
  mjoin (zip_with (fun file report => prefixed file (field report))
           files reports).

(** Number of reports whose [success] flag is set. *)
Definition count_success (reports : list SnapshotReport) : Z :=
  Z.of_nat (length (filter (fun r => success r = true) reports)).

(** Number of reports that carry at least one error. *)
Definition count_errored (reports : list SnapshotReport) : nat :=
  length (filter (fun r => errors r <> []) reports).

(** No report carries an error. *)
Definition error_free (reports : list SnapshotReport) : bool :=
  forallb (fun r => negb (truthy (errors r))) reports.

(** Two reports that differ at most in their warning lists and in their
    [success] flags. *)
Definition differ_only_in_warnings (r1 r2 : SnapshotReport) : Prop :=
  message r1 = message r2 /\
  processed_projects r1 = processed_projects r2 /\
  processed_events r1 = processed_events r2 /\
  errors r1 = errors r2.

(** The keys of a record of the JSON listing. *)
Definition snapshot_keys : gset string :=
  {[ "snapshot_id"; "snapshot_date"; "uploaded_at"; "source_filename" ]}.

(** [d1] may come before [d2] in a listing by date, largest first, read off
    the ["snapshot_date"] entries of the two records. *)
Definition json_date_desc (c : Collation) (d1 d2 : gmap string SqlValue)
  : Prop :=
  exists x1 x2,
    d1 !! "snapshot_date" = Some x1 /\
    d2 !! "snapshot_date" = Some x2 /\
    sql_leb c x2 x1 = true.

(** ** A sample deployment

    A small importer to run the handlers on concrete batches: the world is
    the rows of the [snapshots] table, whose date column has the default
    collating sequence; an upload without content is reported
    as an error, any other upload is stored as a new row dated by its
    file name. *)

Definition sample_import (file : UploadFile) (db : list Row)
  : SnapshotReport * list Row :=
  match content file with
  | [] => (mkReport false "Import failed" 0 0 [] ["File is empty"], db)
  | b :: _ =>
      (mkReport true "Imported" 2 7
         (if Byte.eqb b Byte.x50 then [] else ["Unknown file signature"])
         [],
       mkRow (SqlInteger (Z.of_nat (length db) + 1))
             (SqlText (filename file))
             (SqlText "2024-05-01 10:00:00")
             (SqlText (filename file)) :: db)
  end.

Definition sample_table (db : list Row) : SnapshotsTable :=
  mkTable binary_collation db.

Definition january : UploadFile :=
  mkUploadFile "2024-01-31.xlsx" [Byte.x50; Byte.x4b].
Definition march : UploadFile :=
  mkUploadFile "2024-03-31.xlsx" [Byte.x50; Byte.x4b].
Definition legacy : UploadFile :=
  mkUploadFile "2024-01-31.xls" [Byte.xd0; Byte.xcf].
Definition blank : UploadFile := mkUploadFile "blank.xlsx" [].

(** An importer that flags a file as failed without listing any error. *)
Definition quiet_failure_import (file : UploadFile) (db : list Row)
  : SnapshotReport * list Row :=
  (mkReport false "Nothing imported" 0 0 [] [], db).

(** Two reports that differ at most in their [message]. *)
Definition differ_only_in_message (r1 r2 : SnapshotReport) : Prop :=
  success r1 = success r2 /\
  processed_projects r1 = processed_projects r2 /\
  processed_events r1 = processed_events r2 /\
  warnings r1 = warnings r2 /\
  errors r1 = errors r2.

(** An importer whose message tells how much it read. *)
Definition verbose_import (file : UploadFile) (db : list Row)
  : SnapshotReport * list Row :=
  (mkReport true
     ("Read " +:+ pretty (Z.of_nat (length (content file))) +:+ " bytes")
     1 3 ["No owner column"] [],
   db).

Definition january_resaved : UploadFile :=
  mkUploadFile "2024-01-31.xlsx" [Byte.x50; Byte.x4b; Byte.x03; Byte.x04].

(** ** The connection dependency ([get_conn])

    [get_conn] is a generator: it opens a connection, yields it from inside
    a [try], and closes it in the [finally].  The embedding follows the
    generator protocol: the caller resumes the generator with [next(g)],
    [g.throw(exc)] or [g.close()], and each resumption runs the body up to
    the next suspension point or to its end.  What [get_connection()]
    returns or raises in this run is a parameter; the calls made to the
    collaborators are logged in order.  ([conn.close()] is taken to
    return.) *)

Inductive ConnCall (Conn : Type) : Type :=
  | CallGetConnection
  | CallClose (conn : Conn).
Arguments CallGetConnection {Conn}.
Arguments CallClose {Conn} conn.

(** Where the generator stands: created and not yet started, suspended at
    [yield conn], or finished. *)
Inductive GenState (Conn : Type) : Type :=
  | GenCreated
  | GenSuspended (conn : Conn)
  | GenFinished.
Arguments GenCreated {Conn}.
Arguments GenSuspended {Conn} conn.
Arguments GenFinished {Conn}.

(** [next(g)], [g.throw(exc)], [g.close()]. *)
Inductive GenResume (Exn : Type) : Type :=
  | GenNext
  | GenThrow (exc : Exn)
  | GenClose.
Arguments GenNext {Exn}.
Arguments GenThrow {Exn} exc.
Arguments GenClose {Exn}.

(** What the caller gets back: the yielded connection, [StopIteration],
    an exception, or the plain return of [g.close()]. *)
Inductive GenOutcome (Conn Exn : Type) : Type :=
  | Yielded (conn : Conn)
  | StopIteration
  | Raised (exc : Exn)
  | CloseReturned.
Arguments Yielded {Conn Exn} conn.
Arguments StopIteration {Conn Exn}.
Arguments Raised {Conn Exn} exc.
Arguments CloseReturned {Conn Exn}.

Section GetConn.

Variables Conn Exn : Type.

(** What [get_connection()] does when called: raise or return. *)
Variable get_connection : Exn + Conn.

(** One resumption of [get_conn]. *)
Definition get_conn_resume (g : GenState Conn) (r : GenResume Exn)
  : GenState Conn * GenOutcome Conn Exn * list (ConnCall Conn) :=
  match g with
  | GenCreated =>
      match r with
      | GenNext =>
          (* conn = get_connection() *)
          match get_connection with
          | inr conn =>
              (* try: yield conn *)
              (GenSuspended conn, Yielded conn, [CallGetConnection])
          | inl exc => (GenFinished, Raised exc, [CallGetConnection])
          end
      | GenThrow exc => (GenFinished, Raised exc, [])
      | GenClose => (GenFinished, CloseReturned, [])
      end
  | GenSuspended conn =>
      (* finally: conn.close() *)
      let calls := [CallClose conn] in
      match r with
      | GenNext => (GenFinished, StopIteration, calls)
      | GenThrow exc => (GenFinished, Raised exc, calls)
      | GenClose => (GenFinished, CloseReturned, calls)
      end
  | GenFinished =>
      match r with
      | GenNext => (GenFinished, StopIteration, [])
      | GenThrow exc => (GenFinished, Raised exc, [])
      | GenClose => (GenFinished, CloseReturned, [])
      end
  end.

(** A caller resuming the generator again and again: the state reached and
    the calls made on the way. *)
Fixpoint get_conn_drive (g : GenState Conn) (rs : list (GenResume Exn))
  : GenState Conn * list (ConnCall Conn) :=
  match rs with
  | [] => (g, [])
  | r :: rs =>
      let '(g, _, calls) := get_conn_resume g r in
      let '(g, calls') := get_conn_drive g rs in
      (g, calls ++ calls')
  end.

End GetConn.

Arguments get_conn_resume {Conn Exn} get_connection g r.
Arguments get_conn_drive {Conn Exn} get_connection g rs.

(** * Properties *)

(** ** The sort order of column values *)

Section ColumnOrder.

Lemma bytes_leb_total (a b : list N) :
  bytes_leb a b = true \/ bytes_leb b a = true.
Proof.
  revert b; induction a as [|x a IH]; intros [|y b]; simpl; auto.
  destruct (N.ltb_spec x y), (N.ltb_spec y x); auto; lia.
Qed.

Lemma bytes_leb_trans (a b c : list N) :
  bytes_leb a b = true -> bytes_leb b c = true -> bytes_leb a c = true.
Proof.
  revert b c; induction a as [|x a IH]; intros [|y b] [|z c]; simpl;
    try done.
  destruct (N.ltb_spec x y), (N.ltb_spec y x), (N.ltb_spec y z),
    (N.ltb_spec z y), (N.ltb_spec x z), (N.ltb_spec z x);
    try done; try lia; eauto.
Qed.

Lemma real_leb_total (x y : SqlRealValue) :
  real_leb x y = true \/ real_leb y x = true.
Proof.
  destruct x as [|m1 e1|], y as [|m2 e2|]; simpl; auto.
  rewrite !Qle_bool_iff.
  destruct (Qlt_le_dec (dyadic m1 e1) (dyadic m2 e2)) as [Hlt|Hle]; auto.
  left. by apply Qlt_le_weak.
Qed.

Lemma real_leb_trans (x y z : SqlRealValue) :
  real_leb x y = true -> real_leb y z = true -> real_leb x z = true.
Proof.
  destruct x as [|m1 e1|], y as [|m2 e2|], z as [|m3 e3|]; simpl; try done.
  rewrite !Qle_bool_iff. apply Qle_trans.
Qed.

(** Two INTEGERs compare the same way as numbers among the REALs. *)
Lemma real_leb_of_Z (x y : Z) :
  real_leb (real_of_Z x) (real_of_Z y) = (x <=? y).
Proof.
  unfold real_of_Z, real_leb, dyadic. apply eq_true_iff_eq.
  rewrite Qle_bool_iff, Z.leb_le. change (Qpower (2 # 1) 0) with 1%Q.
  rewrite !Qmult_1_r, <- Zle_Qle. done.
Qed.

Lemma sql_leb_total (c : Collation) (a b : SqlValue) :
  sql_leb c a b = true \/ sql_leb c b a = true.
Proof.
  destruct a, b; cbn [sql_leb];
    auto using bytes_leb_total, real_leb_total.
  rewrite <- !real_leb_of_Z. apply real_leb_total.
Qed.

Lemma sql_leb_trans (c : Collation) (x y z : SqlValue) :
  sql_leb c x y = true -> sql_leb c y z = true -> sql_leb c x z = true.
Proof.
  destruct x, y, z; cbn [sql_leb]; try done; rewrite <- ?real_leb_of_Z;
    eauto using bytes_leb_trans, real_leb_trans.
Qed.

Lemma sql_leb_refl (c : Collation) (a : SqlValue) : sql_leb c a a = true.
Proof. destruct (sql_leb_total c a a); done. Qed.

End ColumnOrder.

Global Instance date_desc_total (c : Collation) : Total (date_desc c).
Proof. intros r1 r2. unfold date_desc. apply sql_leb_total. Qed.

Global Instance date_desc_trans (c : Collation) : Transitive (date_desc c).
Proof.
  intros r1 r2 r3 H12 H23. unfold date_desc in *.
  eapply sql_leb_trans; eauto.
Qed.

Lemma insert_by_date_permutation (c : Collation) (row : Row) (rows : list Row) :
  insert_by_date c row rows ≡ₚ row :: rows.
Proof.
  induction rows as [|row' rows IH]; simpl; [done|].
  destruct (sql_leb c _ _); [done|].
  rewrite IH. apply Permutation_swap.
Qed.

Lemma insert_by_date_sorted (c : Collation) (row : Row) (rows : list Row) :
  StronglySorted (date_desc c) rows ->
  StronglySorted (date_desc c) (insert_by_date c row rows).
Proof.
  induction 1 as [|row' rows Hsorted IH Hrow']; simpl.
  - repeat constructor.
  - destruct (sql_leb c (snapshot_date row') (snapshot_date row)) eqn:Hle.
    + constructor; [by constructor|].
      constructor; [exact Hle|].
      eapply Forall_impl; [exact Hrow'|].
      intros r Hr. by transitivity row'.
    + constructor; [exact IH|].
      rewrite insert_by_date_permutation. constructor; [|exact Hrow'].
      destruct (date_desc_total c row row') as [Hd|Hd]; [|exact Hd].
      unfold date_desc in Hd. congruence.
Qed.

Lemma select_sorted (table : SnapshotsTable) :
  StronglySorted (date_desc (date_collation table))
    (select_snapshots_by_date_desc table).
Proof.
  unfold select_snapshots_by_date_desc.
  induction (table_rows table) as [|row rows IH]; simpl; [constructor|].
  by apply insert_by_date_sorted.
Qed.

Lemma select_permutation (table : SnapshotsTable) :
  select_snapshots_by_date_desc table ≡ₚ table_rows table.
Proof.
  unfold select_snapshots_by_date_desc.
  induction (table_rows table) as [|row rows IH]; simpl; [done|].
  by rewrite insert_by_date_permutation, IH.
Qed.

(** ** The upload loop *)

Section UploadLoop.

Variable World : Type.
Variable import_snapshot : UploadFile -> World -> SnapshotReport * World.

Implicit Types (files : list UploadFile) (st : UploadLocals) (w : World).

Lemma per_file_reports_length files w :
  length (per_file_reports import_snapshot files w) = length files.
Proof.
  revert w; induction files as [|f files IH]; intros w; simpl; [done|].
  destruct (import_snapshot f w) as [r w']; simpl. by rewrite IH.
Qed.

(** What the loop has done to the locals once it has run over [files]. *)
Lemma upload_loop_spec files st w :
  let agg := aggregated_report st in
  let reports := per_file_reports import_snapshot files w in
  upload_loop import_snapshot files st w =
    (mkLocals
       (mkReport (success agg && error_free reports)
                 (message agg)
                 (processed_projects agg + Zsum (processed_projects <$> reports))
                 (processed_events agg + Zsum (processed_events <$> reports))
                 (warnings agg ++ prefixed_all warnings files reports)
                 (errors agg ++ prefixed_all errors files reports))
       (valid_files_count st + count_success reports),
     world_after import_snapshot files w).
Proof.
  revert st w; induction files as [|f files IH]; intros [agg valid] w.
  - destruct agg; simpl. unfold prefixed_all, count_success; simpl.
    rewrite andb_true_r, !Z.add_0_r, !app_nil_r. done.
  - simpl. unfold upload_file.
    destruct (import_snapshot f w) as [r w'] eqn:Himp. rewrite IH. simpl.
    destruct agg as [s m pp pe ws es], r as [rs rm rpp rpe rws res]; simpl.
    unfold prefixed_all, count_success; simpl.
    rewrite filter_cons; simpl.
    f_equal. f_equal.
    + f_equal.
      * destruct rws, res; simpl; rewrite ?andb_false_r; done.
      * destruct rws, res; done.
      * destruct rws, res; simpl; rewrite <- Z.add_assoc; reflexivity.
      * destruct rws, res; simpl; rewrite <- Z.add_assoc; reflexivity.
      * destruct rws, res; simpl; rewrite <- ?app_assoc; done.
      * destruct rws, res; simpl; rewrite <- ?app_assoc; done.
    + destruct rs; simpl; lia.
Qed.

End UploadLoop.

(** ** Prefixed message lists *)

Section Prefixed.

Implicit Types (files : list UploadFile) (reports : list SnapshotReport).
Implicit Types (field : SnapshotReport -> list string).

Lemma prefixed_all_cons field file files report reports :
  prefixed_all field (file :: files) (report :: reports) =
  prefixed file (field report) ++ prefixed_all field files reports.
Proof. reflexivity. Qed.

Lemma prefixed_all_length field files reports :
  length files = length reports ->
  length (prefixed_all field files reports) =
  sum_list_with (fun r => length (field r)) reports.
Proof.
  revert reports; induction files as [|f files IH]; intros [|r reports] Hlen;
    try done.
  rewrite prefixed_all_cons, length_app. unfold prefixed at 1.
  rewrite length_fmap. simpl. f_equal. apply IH. by injection Hlen.
Qed.

(** Every aggregated message comes from some file's report. *)
Lemma prefixed_all_origin field files reports m :
  m ∈ prefixed_all field files reports ->
  exists i file report m0,
    files !! i = Some file /\ reports !! i = Some report /\
    m0 ∈ field report /\ m = file_prefix file +:+ m0.
Proof.
  revert reports; induction files as [|f files IH]; intros [|r reports];
    try (by intros ?%elem_of_nil).
  rewrite prefixed_all_cons, elem_of_app. intros [Hhd|Htl].
  - apply list_elem_of_fmap in Hhd as (m0 & -> & Hm0).
    exists 0%nat, f, r, m0. done.
  - destruct (IH _ Htl) as (i & f' & r' & m0 & ? & ? & ? & ?).
    exists (S i), f', r', m0. done.
Qed.

(** Every message of every report is among the aggregated ones. *)
Lemma prefixed_all_member field files reports i file report m0 :
  files !! i = Some file -> reports !! i = Some report ->
  m0 ∈ field report ->
  file_prefix file +:+ m0 ∈ prefixed_all field files reports.
Proof.
  revert reports i; induction files as [|f files IH];
    intros [|r reports] [|i]; try done; simpl; intros Hf Hr Hm.
  - injection Hf as ->. injection Hr as ->.
    rewrite prefixed_all_cons, elem_of_app. left.
    unfold prefixed. apply list_elem_of_fmap. eauto.
  - rewrite prefixed_all_cons, elem_of_app. right. eauto.
Qed.

Lemma prefixed_all_errors_truthy files reports :
  length files = length reports ->
  truthy (prefixed_all errors files reports) = negb (error_free reports).
Proof.
  revert reports; induction files as [|f files IH]; intros [|r reports] Hlen;
    try done.
  rewrite prefixed_all_cons. simpl. injection Hlen as Hlen.
  destruct (errors r) as [|e es]; simpl; [by apply IH | done].
Qed.

Lemma string_append_assoc (a b c : string) :
  (a +:+ b) +:+ c = a +:+ b +:+ c.
Proof.
  induction a as [|x a IH]; [done|].
  change (String x ((a +:+ b) +:+ c) = String x (a +:+ b +:+ c)).
  by f_equal.
Qed.

Lemma string_prefix_append (p s : string) : String.prefix p (p +:+ s) = true.
Proof.
  induction p as [|c p IH]; simpl; [by destruct s|].
  destruct (Ascii.ascii_dec c c); done.
Qed.

Lemma error_free_Forall reports :
  error_free reports = true <-> Forall (fun r => errors r = []) reports.
Proof.
  unfold error_free. induction reports as [|r reports IH]; simpl.
  - split; [constructor | done].
  - rewrite Forall_cons, <- IH, andb_true_iff.
    destruct (errors r); simpl; split; intros []; done.
Qed.

Lemma count_errored_error_free reports :
  (1 <= count_errored reports)%nat <-> error_free reports = false.
Proof.
  unfold count_errored. induction reports as [|r reports IH]; simpl.
  - split; [lia | done].
  - rewrite filter_cons. case_decide as Hr; destruct (errors r); try done.
    simpl. split; [done | lia].
Qed.

Lemma count_success_all reports :
  Forall (fun r => success r = true) reports ->
  count_success reports = Z.of_nat (length reports).
Proof.
  unfold count_success. induction 1 as [|r reports Hr _ IH]; [done|].
  rewrite filter_cons. case_decide; [|done]. simpl length. lia.
Qed.

End Prefixed.

(** ** The handlers *)

Section Handlers.

Context {Request World : Type}.
Variable import_snapshot : UploadFile -> World -> SnapshotReport * World.
Variable snapshots_table : World -> SnapshotsTable.

Implicit Types (files : list UploadFile) (w : World) (request : Request).

(** The report of a batch, field by field, in terms of the reports the
    importer returned. *)
Lemma upload_report_spec files w :
  let reports := per_file_reports import_snapshot files w in
  let n := Z.of_nat (length files) in
  let valid := count_success reports in
  upload_report import_snapshot files w =
    (mkReport
       (error_free reports)
       (if error_free reports
        then "Successfully uploaded " +:+ pretty valid +:+ " files."
        else "Processed " +:+ pretty n +:+ " files. "
             +:+ pretty valid +:+ " succeeded, "
             +:+ pretty (n - valid) +:+ " failed.")
       (Zsum (processed_projects <$> reports))
       (Zsum (processed_events <$> reports))
       (prefixed_all warnings files reports)
       (prefixed_all errors files reports),
     world_after import_snapshot files w).
Proof.
  intros reports n valid. unfold upload_report.
  rewrite upload_loop_spec. cbn [aggregated_report valid_files_count].
  unfold finish_report.
  cbn [aggregated_report valid_files_count errors success message
       processed_projects processed_events warnings app andb].
  fold reports. rewrite prefixed_all_errors_truthy
    by (symmetry; apply per_file_reports_length).
  rewrite !Z.add_0_l. fold valid n.
  destruct (error_free reports); reflexivity.
Qed.

(** The response of [upload_snapshot] and the world it leaves. *)
Lemma upload_snapshot_spec request files w :
  let w' := world_after import_snapshot files w in
  upload_snapshot import_snapshot snapshots_table request files w =
    (mkTemplateResponse "admin.html"
       (mkContext request
          (select_snapshots_by_date_desc (snapshots_table w'))
          (Some (upload_report import_snapshot files w).1)
          "cockpit"),
     w').
Proof.
  intros w'. unfold upload_snapshot.
  rewrite upload_report_spec. reflexivity.
Qed.

(** The loop of [list_snapshots] appends one record per row. *)
Lemma list_snapshots_loop {A B} (g : A -> B) (rows : list A) (data : list B) :
  foldl (fun data row => data ++ [g row]) data rows = data ++ (g <$> rows).
Proof.
  revert data; induction rows as [|row rows IH]; intros data; simpl.
  - by rewrite app_nil_r.
  - rewrite IH, <- app_assoc. done.
Qed.

Lemma rendered_report_spec request files w :
  rendered_report import_snapshot snapshots_table request files w =
  Some (upload_report import_snapshot files w).1.
Proof. unfold rendered_report. by rewrite upload_snapshot_spec. Qed.

End Handlers.

(** ** Sample runs *)

Example sample_mixed_batch :
  rendered_report sample_import sample_table tt [january; blank; legacy] [] =
  Some (mkReport false "Processed 3 files. 2 succeeded, 1 failed." 4 14
          ["[2024-01-31.xls] Unknown file signature"]
          ["[blank.xlsx] File is empty"]).
Proof. reflexivity. Qed.

Example sample_clean_batch :
  rendered_report sample_import sample_table tt [january; march] [] =
  Some (mkReport true "Successfully uploaded 2 files." 4 14 [] []).
Proof. reflexivity. Qed.

Example sample_listing :
  list_snapshots sample_table
    (world_after sample_import [january; blank; march] []) =
  [ {[ "snapshot_id" := SqlInteger 2;
       "snapshot_date" := SqlText "2024-03-31.xlsx";
       "uploaded_at" := SqlText "2024-05-01 10:00:00";
       "source_filename" := SqlText "2024-03-31.xlsx" ]};
    {[ "snapshot_id" := SqlInteger 1;
       "snapshot_date" := SqlText "2024-01-31.xlsx";
       "uploaded_at" := SqlText "2024-05-01 10:00:00";
       "source_filename" := SqlText "2024-01-31.xlsx" ]} ].
Proof. reflexivity. Qed.

Example sample_order_across_storage_classes :
  select_snapshots_by_date_desc
    (mkTable binary_collation
       [ mkRow (SqlInteger 1) SqlNull SqlNull SqlNull;
         mkRow (SqlInteger 2) (SqlText "2024-02-01") SqlNull SqlNull;
         mkRow (SqlInteger 3) (SqlInteger 2460311) SqlNull SqlNull;
         mkRow (SqlInteger 4) (SqlReal (RealFinite 4920623 (-1))) SqlNull SqlNull;
         mkRow (SqlInteger 5) (SqlText "2024-10-01") SqlNull SqlNull;
         mkRow (SqlInteger 6) (SqlReal RealPosInfinity) SqlNull SqlNull ]) =
    [ mkRow (SqlInteger 5) (SqlText "2024-10-01") SqlNull SqlNull;
      mkRow (SqlInteger 2) (SqlText "2024-02-01") SqlNull SqlNull;
      mkRow (SqlInteger 6) (SqlReal RealPosInfinity) SqlNull SqlNull;
      mkRow (SqlInteger 4) (SqlReal (RealFinite 4920623 (-1))) SqlNull SqlNull;
      mkRow (SqlInteger 3) (SqlInteger 2460311) SqlNull SqlNull;
      mkRow (SqlInteger 1) SqlNull SqlNull SqlNull ].
Proof. reflexivity. Qed.

Example sample_order_of_equal_dates :
  snapshot_id <$>
    select_snapshots_by_date_desc
      (mkTable binary_collation
         [ mkRow (SqlInteger 1) (SqlText "2024-01-01") SqlNull SqlNull;
           mkRow (SqlInteger 2) (SqlText "2024-01-01") SqlNull SqlNull;
           mkRow (SqlInteger 3) (SqlText "2024-01-01") SqlNull SqlNull ]) =
    [ SqlInteger 1; SqlInteger 2; SqlInteger 3 ].
Proof. reflexivity. Qed.

(** * The properties of the specification *)

(** C1: in a batch of N uploaded files of which k >= 1 produce errors, the
    aggregated report has [success = false], its error list is as long as
    the per-file error lists together, and every entry of it is an error
    of some file's report behind the prefix ["[<filename>] "] of that
    file. *)
Theorem upload_errors_mark_failure {Request World : Type}
    (import_snapshot : UploadFile -> World -> SnapshotReport * World)
    (snapshots_table : World -> SnapshotsTable)
    (request : Request) (files : list UploadFile) (w : World) :
  (1 <= count_errored (per_file_reports import_snapshot files w))%nat ->
  exists agg,
    rendered_report import_snapshot snapshots_table request files w = Some agg /\
    success agg = false /\
    length (errors agg) =
      sum_list_with (fun r => length (errors r))
        (per_file_reports import_snapshot files w) /\
    Forall
      (fun e =>
         exists i file report e0,
           files !! i = Some file /\
           per_file_reports import_snapshot files w !! i = Some report /\
           e0 ∈ errors report /\
           e = "[" +:+ filename file +:+ "] " +:+ e0 /\
           String.prefix ("[" +:+ filename file +:+ "] ") e = true)
      (errors agg).
Proof.
  intros Hk. apply count_errored_error_free in Hk.
  eexists. split; [apply rendered_report_spec|].
  rewrite upload_report_spec. cbn [fst success errors]. rewrite Hk.
  split; [done|]. split.
  - apply prefixed_all_length. symmetry. apply per_file_reports_length.
  - apply Forall_forall. intros e He.
    apply prefixed_all_origin in He as (i & file & report & e0 & ? & ? & ? & ->).
    exists i, file, report, e0. repeat split; try done.
    + unfold file_prefix. by rewrite !string_append_assoc.
    + apply (string_prefix_append (file_prefix file)).
Qed.

Lemma upload_errors_mark_failure_witness :
  (1 <= count_errored
          (per_file_reports sample_import [january; blank; march] []))%nat /\
  exists agg,
    rendered_report sample_import sample_table tt [january; blank; march] []
      = Some agg /\
    success agg = false /\
    length (errors agg) =
      sum_list_with (fun r => length (errors r))
        (per_file_reports sample_import [january; blank; march] []) /\
    Forall
      (fun e =>
         exists i file report e0,
           [january; blank; march] !! i = Some file /\
           per_file_reports sample_import [january; blank; march] [] !! i
             = Some report /\
           e0 ∈ errors report /\
           e = "[" +:+ filename file +:+ "] " +:+ e0 /\
           String.prefix ("[" +:+ filename file +:+ "] ") e = true)
      (errors agg).
Proof.
  split.
  - vm_compute. lia.
  - apply (upload_errors_mark_failure sample_import sample_table tt
             [january; blank; march] []).
    vm_compute. lia.
Defined.

(** C2, as the code has it: in a batch of N uploaded files whose per-file
    reports all have an empty error list, the aggregated report has
    [success = true] and its message reads "Successfully uploaded v files."
    where v is the number of per-file reports whose [success] flag is set;
    v is N when every per-file report has its flag set. *)
Theorem upload_clean_batch_message {Request World : Type}
    (import_snapshot : UploadFile -> World -> SnapshotReport * World)
    (snapshots_table : World -> SnapshotsTable)
    (request : Request) (files : list UploadFile) (w : World) :
  Forall (fun r => errors r = []) (per_file_reports import_snapshot files w) ->
  exists agg,
    rendered_report import_snapshot snapshots_table request files w = Some agg /\
    success agg = true /\
    message agg =
      "Successfully uploaded "
      +:+ pretty (count_success (per_file_reports import_snapshot files w))
      +:+ " files." /\
    (Forall (fun r => success r = true)
       (per_file_reports import_snapshot files w) ->
     count_success (per_file_reports import_snapshot files w)
     = Z.of_nat (length files)).
Proof.
  intros Hclean. apply error_free_Forall in Hclean.
  eexists. split; [apply rendered_report_spec|].
  rewrite upload_report_spec. cbn [fst success message]. rewrite Hclean.
  repeat split. intros Hall.
  rewrite count_success_all by done. by rewrite per_file_reports_length.
Qed.

Lemma upload_clean_batch_message_witness :
  Forall (fun r => errors r = [])
    (per_file_reports sample_import [january; legacy; march] []) /\
  Forall (fun r => success r = true)
    (per_file_reports sample_import [january; legacy; march] []) /\
  exists agg,
    rendered_report sample_import sample_table tt [january; legacy; march] []
      = Some agg /\
    success agg = true /\
    message agg = "Successfully uploaded 3 files.".
Proof.
  assert (Hclean : Forall (fun r => errors r = [])
            (per_file_reports sample_import [january; legacy; march] []))
    by (repeat constructor).
  assert (Hall : Forall (fun r => success r = true)
            (per_file_reports sample_import [january; legacy; march] []))
    by (repeat constructor).
  split; [exact Hclean|]. split; [exact Hall|].
  destruct (upload_clean_batch_message sample_import sample_table tt
              [january; legacy; march] [] Hclean)
    as (agg & Hagg & Hsucc & Hmsg & Hcount).
  exists agg. split; [exact Hagg|]. split; [exact Hsucc|].
  rewrite Hmsg, (Hcount Hall). reflexivity.
Defined.

(** C2, as stated, fails: one uploaded file whose report lists no error
    but has [success = false] yields the message "Successfully uploaded 0
    files." for a batch of N = 1. *)
Lemma upload_clean_batch_counterexample :
  Forall (fun r => errors r = [])
    (per_file_reports quiet_failure_import [january] []) /\
  exists agg,
    rendered_report quiet_failure_import sample_table tt [january] []
      = Some agg /\
    success agg = true /\
    message agg = "Successfully uploaded 0 files." /\
    message agg <>
      "Successfully uploaded "
      +:+ pretty (Z.of_nat (length [january])) +:+ " files.".
Proof.
  split; [repeat constructor|].
  eexists. split; [reflexivity|]. repeat split. discriminate.
Qed.

(** C3: for every database state, the rows that [admin_home] hands to the
    template and the records that [list_snapshots] returns are ordered by
    snapshot date, largest first; the rows are those of the table, and
    the records are those rows, one after the other, column by column. *)
Theorem listings_ordered_by_date_desc {Request World : Type}
    (snapshots_table : World -> SnapshotsTable)
    (request : Request) (conn : World) :
  StronglySorted (date_desc (date_collation (snapshots_table conn)))
    (ctx_snapshots (context (admin_home snapshots_table request conn))) /\
  ctx_snapshots (context (admin_home snapshots_table request conn))
    ≡ₚ table_rows (snapshots_table conn) /\
  StronglySorted (json_date_desc (date_collation (snapshots_table conn)))
    (list_snapshots snapshots_table conn) /\
  length (list_snapshots snapshots_table conn)
    = length (table_rows (snapshots_table conn)) /\
  Forall2
    (fun row record =>
       record !! "snapshot_id" = Some (snapshot_id row) /\
       record !! "snapshot_date" = Some (snapshot_date row) /\
       record !! "uploaded_at" = Some (uploaded_at row) /\
       record !! "source_filename" = Some (source_filename row))
    (ctx_snapshots (context (admin_home snapshots_table request conn)))
    (list_snapshots snapshots_table conn).
Proof.
  split; [apply select_sorted|]. split; [apply select_permutation|].
  unfold list_snapshots. rewrite list_snapshots_loop, app_nil_l.
  split; [|split].
  - generalize (select_sorted (snapshots_table conn)).
    induction 1 as [|row rows _ IH Hrow]; [constructor|].
    rewrite fmap_cons. constructor; [exact IH|].
    apply Forall_fmap. eapply Forall_impl; [exact Hrow|].
    intros row' Hle. exists (snapshot_date row), (snapshot_date row').
    repeat split; done.
  - by rewrite length_fmap, select_permutation.
  - cbn [admin_home context ctx_snapshots].
    apply Forall2_fmap_r, Forall_Forall2_diag, Forall_forall.
    intros row _. repeat split; done.
Qed.

(** C4: the aggregated [processed_projects] is the sum of the per-file
    [processed_projects], the aggregated [processed_events] the sum of the
    per-file [processed_events]; both are 0 for the empty batch. *)
Theorem upload_counts_are_sums {Request World : Type}
    (import_snapshot : UploadFile -> World -> SnapshotReport * World)
    (snapshots_table : World -> SnapshotsTable)
    (request : Request) (files : list UploadFile) (w : World) :
  (exists agg,
     rendered_report import_snapshot snapshots_table request files w
       = Some agg /\
     processed_projects agg =
       Zsum (processed_projects <$> per_file_reports import_snapshot files w) /\
     processed_events agg =
       Zsum (processed_events <$> per_file_reports import_snapshot files w)) /\
  (exists agg0,
     rendered_report import_snapshot snapshots_table request [] w
       = Some agg0 /\
     processed_projects agg0 = 0 /\
     processed_events agg0 = 0).
Proof.
  split.
  - eexists. split; [apply rendered_report_spec|].
    by rewrite upload_report_spec.
  - eexists. split; [reflexivity|]. done.
Qed.

(** C5: for every batch, whatever errors the per-file reports carry, the
    upload handler returns the [admin.html] page annotated with the
    aggregated report, and every error of every per-file report is an
    entry (behind its file's prefix) of the aggregated error list. *)
Theorem upload_returns_annotated_page {Request World : Type}
    (import_snapshot : UploadFile -> World -> SnapshotReport * World)
    (snapshots_table : World -> SnapshotsTable)
    (request : Request) (files : list UploadFile) (w : World) :
  exists agg conn',
    upload_snapshot import_snapshot snapshots_table request files w =
      (mkTemplateResponse "admin.html"
         (mkContext request
            (select_snapshots_by_date_desc (snapshots_table conn'))
            (Some agg) "cockpit"),
       conn') /\
    forall i file report e0,
      files !! i = Some file ->
      per_file_reports import_snapshot files w !! i = Some report ->
      e0 ∈ errors report ->
      file_prefix file +:+ e0 ∈ errors agg.
Proof.
  eexists _, _. split; [apply upload_snapshot_spec|].
  rewrite upload_report_spec. cbn [fst errors].
  intros i file report e0. apply prefixed_all_member.
Qed.

Lemma upload_returns_annotated_page_witness :
  exists agg conn',
    upload_snapshot sample_import sample_table tt [blank; january; blank] [] =
      (mkTemplateResponse "admin.html"
         (mkContext tt (select_snapshots_by_date_desc (sample_table conn'))
            (Some agg) "cockpit"),
       conn') /\
    "[blank.xlsx] File is empty" ∈ errors agg.
Proof.
  destruct (upload_returns_annotated_page sample_import sample_table tt
              [blank; january; blank] [])
    as (agg & conn' & Hpage & Herrors).
  exists agg, conn'. split; [exact Hpage|].
  apply (Herrors 2%nat blank
           (mkReport false "Import failed" 0 0 [] ["File is empty"])
           "File is empty").
  - reflexivity.
  - reflexivity.
  - apply list_elem_of_here.
Defined.

(** C6: every record that [list_snapshots] returns has exactly the four
    keys snapshot_id, snapshot_date, uploaded_at and source_filename, each
    holding the value of that column in the row the record was made
    from. *)
Theorem list_snapshots_records {World : Type}
    (snapshots_table : World -> SnapshotsTable) (conn : World) :
  Forall2
    (fun row record =>
       dom record
         = ({[ "snapshot_id"; "snapshot_date";
               "uploaded_at"; "source_filename" ]} : gset string) /\
       record !! "snapshot_id" = Some (snapshot_id row) /\
       record !! "snapshot_date" = Some (snapshot_date row) /\
       record !! "uploaded_at" = Some (uploaded_at row) /\
       record !! "source_filename" = Some (source_filename row))
    (select_snapshots_by_date_desc (snapshots_table conn))
    (list_snapshots snapshots_table conn).
Proof.
  unfold list_snapshots. rewrite list_snapshots_loop, app_nil_l.
  apply Forall2_fmap_r, Forall_Forall2_diag, Forall_forall.
  intros row _. split; [|repeat split; done].
  rewrite !dom_insert_L, dom_singleton_L. set_solver.
Qed.

(** C7: the files are imported one at a time in the order given; the
    aggregated warning list is the concatenation, file after file, of the
    prefixed per-file warning lists, and the aggregated error list that of
    the prefixed per-file error lists. *)
Theorem upload_concatenates_in_file_order {Request World : Type}
    (import_snapshot : UploadFile -> World -> SnapshotReport * World)
    (snapshots_table : World -> SnapshotsTable)
    (request : Request) (files : list UploadFile) (w : World) :
  exists agg,
    rendered_report import_snapshot snapshots_table request files w = Some agg /\
    warnings agg =
      mjoin
        (zip_with
           (fun file report =>
              (fun m => ("[" +:+ filename file +:+ "] ") +:+ m)
                <$> warnings report)
           files (per_file_reports import_snapshot files w)) /\
    errors agg =
      mjoin
        (zip_with
           (fun file report =>
              (fun m => ("[" +:+ filename file +:+ "] ") +:+ m)
                <$> errors report)
           files (per_file_reports import_snapshot files w)) /\
    (upload_snapshot import_snapshot snapshots_table request files w).2
      = world_after import_snapshot files w.
Proof.
  eexists. split; [apply rendered_report_spec|].
  rewrite upload_snapshot_spec, upload_report_spec. done.
Qed.

(** C8: for the empty batch the aggregated report has [success = true],
    the message "Successfully uploaded 0 files.", both counts 0 and empty
    warning and error lists. *)
Theorem upload_empty_batch {Request World : Type}
    (import_snapshot : UploadFile -> World -> SnapshotReport * World)
    (snapshots_table : World -> SnapshotsTable)
    (request : Request) (w : World) :
  rendered_report import_snapshot snapshots_table request [] w =
    Some (mkReport true "Successfully uploaded 0 files." 0 0 [] []).
Proof. reflexivity. Qed.

(** C9: the aggregated [success] flag is decided by the per-file error
    lists alone: it is true exactly when every per-file error list is
    empty (so warnings never make it false), and two batches whose
    per-file reports differ only in their warning lists and [success]
    flags get the same aggregated [success]. *)
Theorem upload_success_depends_on_errors_only {Request World : Type}
    (import_snapshot : UploadFile -> World -> SnapshotReport * World)
    (snapshots_table : World -> SnapshotsTable)
    (request1 request2 : Request)
    (files1 files2 : list UploadFile) (w1 w2 : World) :
  exists agg1 agg2,
    rendered_report import_snapshot snapshots_table request1 files1 w1
      = Some agg1 /\
    rendered_report import_snapshot snapshots_table request2 files2 w2
      = Some agg2 /\
    (success agg1 = true <->
     Forall (fun r => errors r = [])
       (per_file_reports import_snapshot files1 w1)) /\
    (Forall2 differ_only_in_warnings
       (per_file_reports import_snapshot files1 w1)
       (per_file_reports import_snapshot files2 w2) ->
     success agg1 = success agg2).
Proof.
  eexists _, _. split; [apply rendered_report_spec|].
  split; [apply rendered_report_spec|].
  rewrite !upload_report_spec. cbn [fst success].
  split; [apply error_free_Forall|].
  induction 1 as [|r1 r2 rs1 rs2 (_ & _ & _ & Herr) _ IH]; [done|].
  unfold error_free in *. simpl. by rewrite Herr, IH.
Qed.

Lemma upload_success_depends_on_errors_only_witness :
  Forall2 differ_only_in_warnings
    (per_file_reports sample_import [january; blank] [])
    (per_file_reports sample_import [legacy; blank] []) /\
  (warnings <$> per_file_reports sample_import [january; blank] [])
    <> (warnings <$> per_file_reports sample_import [legacy; blank] []) /\
  exists agg1 agg2,
    rendered_report sample_import sample_table tt [january; blank] []
      = Some agg1 /\
    rendered_report sample_import sample_table tt [legacy; blank] []
      = Some agg2 /\
    success agg1 = success agg2.
Proof.
  assert (Hsame : Forall2 differ_only_in_warnings
            (per_file_reports sample_import [january; blank] [])
            (per_file_reports sample_import [legacy; blank] []))
    by (repeat constructor).
  split; [exact Hsame|]. split; [discriminate|].
  destruct (upload_success_depends_on_errors_only sample_import sample_table
              tt tt [january; blank] [legacy; blank] [] [])
    as (agg1 & agg2 & H1 & H2 & _ & Heq).
  exists agg1, agg2. split; [exact H1|]. split; [exact H2|].
  exact (Heq Hsame).
Defined.

(** C10: in a batch of N uploaded files of which at least one produces
    errors, the message reads "Processed N files. s succeeded, f failed."
    with s + f = N, where s is the number of files whose per-file report
    has [success] set. *)
Theorem upload_failure_message_counts {Request World : Type}
    (import_snapshot : UploadFile -> World -> SnapshotReport * World)
    (snapshots_table : World -> SnapshotsTable)
    (request : Request) (files : list UploadFile) (w : World) :
  (1 <= count_errored (per_file_reports import_snapshot files w))%nat ->
  exists agg succeeded failed,
    rendered_report import_snapshot snapshots_table request files w = Some agg /\
    message agg =
      "Processed " +:+ pretty (Z.of_nat (length files)) +:+ " files. "
      +:+ pretty succeeded +:+ " succeeded, "
      +:+ pretty failed +:+ " failed." /\
    succeeded + failed = Z.of_nat (length files) /\
    succeeded = count_success (per_file_reports import_snapshot files w).
Proof.
  intros Hk. apply count_errored_error_free in Hk.
  eexists _, _, _. split; [apply rendered_report_spec|].
  rewrite upload_report_spec. cbn [fst message]. rewrite Hk.
  split; [reflexivity|]. split; [lia | reflexivity].
Qed.

Lemma upload_failure_message_counts_witness :
  (1 <= count_errored
          (per_file_reports sample_import [january; blank; march] []))%nat /\
  exists agg succeeded failed,
    rendered_report sample_import sample_table tt [january; blank; march] []
      = Some agg /\
    message agg =
      "Processed " +:+ pretty (Z.of_nat (length [january; blank; march]))
      +:+ " files. "
      +:+ pretty succeeded +:+ " succeeded, "
      +:+ pretty failed +:+ " failed." /\
    succeeded + failed = Z.of_nat (length [january; blank; march]) /\
    succeeded =
      count_success (per_file_reports sample_import [january; blank; march] []).
Proof.
  split.
  - vm_compute. lia.
  - apply (upload_failure_message_counts sample_import sample_table tt
             [january; blank; march] []).
    vm_compute. lia.
Defined.

(** * Further properties of the router *)

(** ** Batches put together *)

Section Batches.

Context {World : Type}.
Variable import_snapshot : UploadFile -> World -> SnapshotReport * World.

Implicit Types (files : list UploadFile) (reports : list SnapshotReport).
Implicit Types (field : SnapshotReport -> list string) (w : World).

Lemma world_after_app files1 files2 w :
  world_after import_snapshot (files1 ++ files2) w =
  world_after import_snapshot files2 (world_after import_snapshot files1 w).
Proof.
  revert w; induction files1 as [|f files1 IH]; intros w; simpl; [done|].
  apply IH.
Qed.

Lemma per_file_reports_app files1 files2 w :
  per_file_reports import_snapshot (files1 ++ files2) w =
  per_file_reports import_snapshot files1 w
  ++ per_file_reports import_snapshot files2
       (world_after import_snapshot files1 w).
Proof.
  revert w; induction files1 as [|f files1 IH]; intros w; simpl; [done|].
  destruct (import_snapshot f w) as [r w']. simpl. by rewrite IH.
Qed.

Lemma prefixed_all_app field files1 files2 reports1 reports2 :
  length files1 = length reports1 ->
  prefixed_all field (files1 ++ files2) (reports1 ++ reports2) =
  prefixed_all field files1 reports1 ++ prefixed_all field files2 reports2.
Proof.
  revert reports1; induction files1 as [|f files1 IH];
    intros [|r reports1] Hlen; try done.
  injection Hlen as Hlen. simpl app.
  rewrite !prefixed_all_cons, IH, app_assoc by done. done.
Qed.

Lemma Zsum_app (l1 l2 : list Z) : Zsum (l1 ++ l2) = Zsum l1 + Zsum l2.
Proof.
  induction l1 as [|x l1 IH]; [done|].
  change (x + Zsum (l1 ++ l2) = x + Zsum l1 + Zsum l2). lia.
Qed.

Lemma error_free_app reports1 reports2 :
  error_free (reports1 ++ reports2)
  = error_free reports1 && error_free reports2.
Proof. apply forallb_app. Qed.

Lemma count_success_bounds reports :
  0 <= count_success reports <= Z.of_nat (length reports).
Proof.
  unfold count_success. split; [lia|].
  apply inj_le, length_filter.
Qed.

Lemma prefixed_all_ext field files1 files2 reports1 reports2 :
  filename <$> files1 = filename <$> files2 ->
  field <$> reports1 = field <$> reports2 ->
  prefixed_all field files1 reports1 = prefixed_all field files2 reports2.
Proof.
  revert files2 reports1 reports2; induction files1 as [|f1 files1 IH];
    intros [|f2 files2] [|r1 reports1] [|r2 reports2]; try done.
  rewrite !fmap_cons. intros [= Hf Hfs] [= Hr Hrs].
  rewrite !prefixed_all_cons. unfold prefixed, file_prefix.
  rewrite Hf, Hr. f_equal. by apply IH.
Qed.

Lemma differ_only_in_message_fields reports1 reports2 :
  Forall2 differ_only_in_message reports1 reports2 ->
  success <$> reports1 = success <$> reports2 /\
  processed_projects <$> reports1 = processed_projects <$> reports2 /\
  processed_events <$> reports1 = processed_events <$> reports2 /\
  warnings <$> reports1 = warnings <$> reports2 /\
  errors <$> reports1 = errors <$> reports2.
Proof.
  induction 1 as [|r1 r2 rs1 rs2 (Hs & Hp & He & Hw & Hr) _ IH]; [done|].
  destruct IH as (IHs & IHp & IHe & IHw & IHr).
  rewrite !fmap_cons. repeat split; congruence.
Qed.

Lemma error_free_fmap reports :
  error_free reports = forallb (fun l => negb (truthy l)) (errors <$> reports).
Proof.
  induction reports as [|r reports IH]; [done|].
  unfold error_free in *. simpl. by rewrite IH.
Qed.

Lemma count_success_fmap reports :
  count_success reports
  = Z.of_nat (length (filter (fun b => b = true) (success <$> reports))).
Proof.
  unfold count_success. f_equal.
  induction reports as [|r reports IH]; [done|].
  rewrite fmap_cons, !filter_cons.
  case_decide; simpl; by rewrite IH.
Qed.

End Batches.

(** ** The upload handler *)

(** X2: one request with the files of two batches, one after the other,
    reports what two requests in a row report together: the counts add
    up, the warning and error lists are appended, the batch succeeds when
    both do, and the imports leave the same state. *)
Theorem upload_batches_compose {Request World : Type}
    (import_snapshot : UploadFile -> World -> SnapshotReport * World)
    (snapshots_table : World -> SnapshotsTable)
    (request : Request) (files1 files2 : list UploadFile) (w : World) :
  exists agg agg1 agg2,
    rendered_report import_snapshot snapshots_table request
      (files1 ++ files2) w = Some agg /\
    rendered_report import_snapshot snapshots_table request files1 w
      = Some agg1 /\
    rendered_report import_snapshot snapshots_table request files2
      (upload_snapshot import_snapshot snapshots_table request files1 w).2
      = Some agg2 /\
    processed_projects agg = processed_projects agg1 + processed_projects agg2 /\
    processed_events agg = processed_events agg1 + processed_events agg2 /\
    warnings agg = warnings agg1 ++ warnings agg2 /\
    errors agg = errors agg1 ++ errors agg2 /\
    success agg = success agg1 && success agg2 /\
    (upload_snapshot import_snapshot snapshots_table request
       (files1 ++ files2) w).2
      = (upload_snapshot import_snapshot snapshots_table request files2
           (upload_snapshot import_snapshot snapshots_table request
              files1 w).2).2.
Proof.
  eexists _, _, _. split; [apply rendered_report_spec|].
  split; [apply rendered_report_spec|].
  split; [apply rendered_report_spec|].
  rewrite !upload_snapshot_spec, !upload_report_spec.
  cbn [fst snd success processed_projects processed_events warnings errors].
  rewrite per_file_reports_app, world_after_app, !fmap_app, !Zsum_app,
    error_free_app.
  rewrite !prefixed_all_app by (symmetry; apply per_file_reports_length).
  done.
Qed.

(** X3: whatever the batch, the message is one of the two sentences, and
    the numbers it prints stay within the batch: with N files, the number
    s of files whose report has [success] set and the number f of the
    others are both between 0 and N and add up to N. *)
Theorem upload_message_counts_bounded {Request World : Type}
    (import_snapshot : UploadFile -> World -> SnapshotReport * World)
    (snapshots_table : World -> SnapshotsTable)
    (request : Request) (files : list UploadFile) (w : World) :
  exists agg s f,
    rendered_report import_snapshot snapshots_table request files w = Some agg /\
    s = count_success (per_file_reports import_snapshot files w) /\
    0 <= s /\ 0 <= f /\ s + f = Z.of_nat (length files) /\
    message agg =
      if success agg
      then "Successfully uploaded " +:+ pretty s +:+ " files."
      else "Processed " +:+ pretty (Z.of_nat (length files)) +:+ " files. "
           +:+ pretty s +:+ " succeeded, "
           +:+ pretty f +:+ " failed.".
Proof.
  pose proof (count_success_bounds (per_file_reports import_snapshot files w))
    as Hb.
  rewrite per_file_reports_length in Hb.
  exists (upload_report import_snapshot files w).1,
    (count_success (per_file_reports import_snapshot files w)),
    (Z.of_nat (length files)
     - count_success (per_file_reports import_snapshot files w)).
  split; [apply rendered_report_spec|].
  rewrite upload_report_spec. cbn [fst success message].
  repeat split; try lia.
Qed.

(** X4: the messages of the per-file reports never reach the page: two
    batches with the same file names whose per-file reports differ only
    in their [message] get the same aggregated report. *)
Theorem upload_ignores_per_file_messages {Request World : Type}
    (import_snapshot : UploadFile -> World -> SnapshotReport * World)
    (snapshots_table : World -> SnapshotsTable)
    (request1 request2 : Request)
    (files1 files2 : list UploadFile) (w1 w2 : World) :
  filename <$> files1 = filename <$> files2 ->
  Forall2 differ_only_in_message
    (per_file_reports import_snapshot files1 w1)
    (per_file_reports import_snapshot files2 w2) ->
  rendered_report import_snapshot snapshots_table request1 files1 w1
  = rendered_report import_snapshot snapshots_table request2 files2 w2.
Proof.
  intros Hnames Hreports.
  apply differ_only_in_message_fields in Hreports
    as (Hs & Hp & He & Hw & Hr).
  rewrite !rendered_report_spec, !upload_report_spec. cbn [fst].
  assert (Hlen : length files1 = length files2)
    by (rewrite <- (length_fmap filename files1), Hnames; apply length_fmap).
  rewrite !error_free_fmap, !count_success_fmap, Hs, Hp, He, Hr, Hlen.
  rewrite (prefixed_all_ext warnings files1 files2 _ _ Hnames Hw).
  rewrite (prefixed_all_ext errors files1 files2 _ _ Hnames Hr).
  done.
Qed.

Lemma upload_ignores_per_file_messages_witness :
  filename <$> [january; blank] = filename <$> [january_resaved; blank] /\
  Forall2 differ_only_in_message
    (per_file_reports verbose_import [january; blank] [])
    (per_file_reports verbose_import [january_resaved; blank] []) /\
  (message <$> per_file_reports verbose_import [january; blank] [])
    <> (message <$> per_file_reports verbose_import [january_resaved; blank] [])
  /\
  rendered_report verbose_import sample_table tt [january; blank] []
  = rendered_report verbose_import sample_table tt [january_resaved; blank] [].
Proof.
  assert (Hnames : filename <$> [january; blank]
                   = filename <$> [january_resaved; blank]) by reflexivity.
  assert (Hreports : Forall2 differ_only_in_message
            (per_file_reports verbose_import [january; blank] [])
            (per_file_reports verbose_import [january_resaved; blank] []))
    by (repeat constructor).
  split; [exact Hnames|]. split; [exact Hreports|].
  split; [vm_compute; discriminate|].
  exact (upload_ignores_per_file_messages verbose_import sample_table tt tt
           [january; blank] [january_resaved; blank] [] [] Hnames Hreports).
Defined.

(** X5: no warning is dropped, repeated or invented: the aggregated
    warning list is as long as the per-file warning lists together, and
    every entry of it is a warning of some file's report behind that
    file's prefix; the aggregated error list, too, is as long as the
    per-file error lists together, errors or not. *)
Theorem upload_warnings_accounted_for {Request World : Type}
    (import_snapshot : UploadFile -> World -> SnapshotReport * World)
    (snapshots_table : World -> SnapshotsTable)
    (request : Request) (files : list UploadFile) (w : World) :
  exists agg,
    rendered_report import_snapshot snapshots_table request files w = Some agg /\
    length (warnings agg) =
      sum_list_with (fun r => length (warnings r))
        (per_file_reports import_snapshot files w) /\
    length (errors agg) =
      sum_list_with (fun r => length (errors r))
        (per_file_reports import_snapshot files w) /\
    Forall
      (fun m =>
         exists i file report m0,
           files !! i = Some file /\
           per_file_reports import_snapshot files w !! i = Some report /\
           m0 ∈ warnings report /\
           m = file_prefix file +:+ m0 /\
           String.prefix (file_prefix file) m = true)
      (warnings agg).
Proof.
  eexists. split; [apply rendered_report_spec|].
  rewrite upload_report_spec. cbn [fst warnings errors].
  split; [|split].
  - apply prefixed_all_length. symmetry. apply per_file_reports_length.
  - apply prefixed_all_length. symmetry. apply per_file_reports_length.
  - apply Forall_forall. intros m Hm.
    apply prefixed_all_origin in Hm as (i & file & report & m0 & ? & ? & ? & ->).
    exists i, file, report, m0. repeat split; try done.
    apply string_prefix_append.
Qed.

(** X6: the report on the page is consistent: [success] is true exactly
    when the error list is empty, and the final [if]/[else] only writes
    the message, since the flag the loop has left behind is already the
    one it assigns. *)
Theorem upload_success_matches_error_list {Request World : Type}
    (import_snapshot : UploadFile -> World -> SnapshotReport * World)
    (snapshots_table : World -> SnapshotsTable)
    (request : Request) (files : list UploadFile) (w : World) :
  exists agg,
    rendered_report import_snapshot snapshots_table request files w = Some agg /\
    (success agg = true <-> errors agg = []) /\
    agg =
      set_message (message agg)
        (aggregated_report
           (upload_loop import_snapshot files
              (mkLocals (mkReport true "" 0 0 [] []) 0) w).1).
Proof.
  eexists. split; [apply rendered_report_spec|].
  rewrite upload_report_spec, upload_loop_spec.
  cbn [fst success errors message aggregated_report processed_projects
       processed_events warnings andb app].
  pose proof (prefixed_all_errors_truthy files
                (per_file_reports import_snapshot files w)
                (eq_sym (per_file_reports_length _ _ _ _))) as Htruthy.
  split.
  - destruct (error_free _), (prefixed_all errors _ _); simpl in Htruthy;
      split; done.
  - unfold set_message.
    cbn [success errors message processed_projects processed_events warnings].
    by rewrite !Z.add_0_l.
Qed.

(** ** The connection dependency *)

Section GetConnFacts.

Context {Conn Exn : Type}.
Variable get_connection : Exn + Conn.

Implicit Types (rs : list (GenResume Exn)) (conn : Conn).

(** A finished generator stays finished and calls nothing. *)
Lemma get_conn_drive_finished rs :
  get_conn_drive get_connection GenFinished rs = (GenFinished, []).
Proof.
  induction rs as [|r rs IH]; [done|].
  destruct r; simpl; by rewrite IH.
Qed.

(** A suspended generator closes its connection at the next resumption. *)
Lemma get_conn_drive_suspended conn r rs :
  get_conn_drive get_connection (GenSuspended conn) (r :: rs)
  = (GenFinished, [CallClose conn]).
Proof.
  simpl. destruct r; rewrite get_conn_drive_finished; done.
Qed.

End GetConnFacts.

(** X7: once [get_conn] has yielded a connection, the next resumption,
    be it [next], [throw] or [close], runs [conn.close()] on that
    connection, and nothing is called after that, however often the
    generator is resumed: the connection is closed exactly once, whether
    the handler returned or raised. *)
Theorem get_conn_closes_yielded_connection {Conn Exn : Type}
    (conn : Conn) (r : GenResume Exn) (rs : list (GenResume Exn)) :
  get_conn_resume (Exn := Exn) (inr conn) GenCreated GenNext
    = (GenSuspended conn, Yielded conn, [CallGetConnection]) /\
  get_conn_drive (inr conn) GenCreated (GenNext :: r :: rs)
    = (GenFinished, [CallGetConnection; CallClose conn]).
Proof.
  split; [reflexivity|].
  change (get_conn_drive (inr conn) GenCreated (GenNext :: r :: rs))
    with (let '(g, calls') :=
            get_conn_drive (Exn := Exn) (inr conn) (GenSuspended conn) (r :: rs)
          in (g, [CallGetConnection] ++ calls')).
  by rewrite get_conn_drive_suspended.
Qed.

(** X8: however [get_conn] is driven, it calls [get_connection()] at most
    once and [close()] at most once, the latter only after the former and
    only on the connection it returned; when [get_connection()] raises,
    or the generator is thrown into or closed before it has started,
    nothing is closed. *)
Theorem get_conn_calls_well_bracketed {Conn Exn : Type}
    (get_connection : Exn + Conn) (rs : list (GenResume Exn)) :
  ((get_conn_drive get_connection GenCreated rs).2 = [] \/
   (get_conn_drive get_connection GenCreated rs).2 = [CallGetConnection] \/
   exists conn,
     get_connection = inr conn /\
     (get_conn_drive get_connection GenCreated rs).2
       = [CallGetConnection; CallClose conn]) /\
  (forall r rs',
     rs = r :: rs' -> r <> GenNext ->
     get_conn_drive get_connection GenCreated rs = (GenFinished, [])).
Proof.
  split.
  - destruct rs as [|r rs']; [by left|].
    destruct r; simpl.
    + destruct get_connection as [exc|conn].
      * rewrite get_conn_drive_finished. by right; left.
      * destruct rs' as [|r' rs''].
        -- by right; left.
        -- rewrite get_conn_drive_suspended. right; right. by exists conn.
    + rewrite get_conn_drive_finished. by left.
    + rewrite get_conn_drive_finished. by left.
  - intros r rs' -> Hr. destruct r; [done| |]; simpl;
      by rewrite get_conn_drive_finished.
Qed.

Lemma get_conn_calls_well_bracketed_witness :
  get_conn_drive (Conn := nat) (inr 7%nat) GenCreated
    [GenThrow "boom"; GenNext; GenClose] = (GenFinished, []).
Proof.
  destruct (get_conn_calls_well_bracketed (Conn := nat) (inr 7%nat)
              [GenThrow "boom"; GenNext; GenClose]) as [_ Hcold].
  apply (Hcold (GenThrow "boom") [GenNext; GenClose]).
  - reflexivity.
  - discriminate.
Defined.
